(** * lc_registry.registry: the registry metaclass mixin

    A shallow embedding of [RegistryMetaclassMixin] (src/lc_registry/registry.py)
    and the properties of its registration life cycle.

    The mixin keeps one class variable, [_REGISTRY], which is either [None] or
    a reference to a [dict] from type names to class objects.  Python dicts are
    mutable objects reached through references, so the embedding has a heap of
    dict objects and the class variable holds a location in it: [registry()]
    allocates a new dict, it does not hand out the registry's own. *)

From Stdlib Require Import Ascii String.
From stdpp Require Import gmap strings list fin_maps.

Local Open Scope string_scope.

(** ** Python values the mixin manipulates *)

(** Identity of a dict object. *)
Definition loc := positive.

(** Exceptions: [TypeError] is the one the source raises; [KeyError] is what
    [del d[k]] and [d.pop(k)] raise on a missing key. *)
Inductive exn :=
| TypeError (msg : string)
| KeyError (key : string).

Inductive outcome (A : Type) :=
| Return (a : A)
| Raise (e : exn).
Arguments Return {A} a.
Arguments Raise {A} e.

(** [tpl.format(arg)] for a template with one auto-numbered field [{}]: the
    field is replaced by [arg], the text around it is kept. *)
Fixpoint str_format (tpl arg : string) : string :=
  match tpl with
  | EmptyString => EmptyString
  | String c rest =>
      match rest with
      | String c' rest' =>
          if (Ascii.eqb c "{"%char && Ascii.eqb c' "}"%char)%bool then arg +:+ rest'
          else String c (str_format rest arg)
      | EmptyString => String c EmptyString
      end
  end.

Section Registry.

(** The registered values (class objects, [Type[Any]]); the mixin stores and
    returns them and never looks inside. *)
Context {Descriptor : Type}.

Abbreviation dict := (gmap string Descriptor).

(** What the methods of a metaclass [cls] built on the mixin can see: the value
    of [cls._REGISTRY] ([None], or a reference to a dict) and the dict objects. *)
Record state := State {
  _REGISTRY : option loc;
  heap : gmap loc dict
}.

(** Computations: they run on a state, end in a value or an exception, and
    leave a state behind in both cases. *)
Definition M (A : Type) : Type := state → outcome A * state.

#[global] Instance M_ret : MRet M := λ A a st, (Return a, st).
#[global] Instance M_bind : MBind M := λ A B f c st,
  match c st with
  | (Return a, st') => f a st'
  | (Raise e, st') => (Raise e, st')
  end.

Definition raise {A} (e : exn) : M A := λ st, (Raise e, st).

(** [cls._REGISTRY] (attribute read). *)
Definition get_REGISTRY : M (option loc) := λ st, (Return (_REGISTRY st), st).

(** *** dict operations *)

Definition deref (st : state) (l : loc) : dict := heap st !!! l.

Definition update_dict (l : loc) (f : dict → dict) (st : state) : state :=
  State (_REGISTRY st) (alter f l (heap st)).

(** [dict(d)]: a new dict object with the entries of [d]. *)
Definition dict_copy (l : loc) : M loc := λ st,
  let l' := fresh (dom (heap st)) in
  (Return l', State (_REGISTRY st) (<[l' := deref st l]> (heap st))).

(** [d.get(k)] *)
Definition dict_get (l : loc) (k : string) : M (option Descriptor) := λ st,
  (Return (deref st l !! k), st).

(** [k in d] *)
Definition dict_contains (l : loc) (k : string) : M bool := λ st,
  (Return (bool_decide (is_Some (deref st l !! k))), st).

(** [d[k] = v] *)
Definition dict_setitem (l : loc) (k : string) (v : Descriptor) : M unit := λ st,
  (Return (), update_dict l (insert k v) st).

(** [del d[k]] *)
Definition dict_delitem (l : loc) (k : string) : M unit := λ st,
  match deref st l !! k with
  | Some _ => (Return (), update_dict l (delete k) st)
  | None => (Raise (KeyError k), st)
  end.

(** [d.pop(k)] *)
Definition dict_pop (l : loc) (k : string) : M Descriptor := λ st,
  match deref st l !! k with
  | Some v => (Return v, update_dict l (delete k) st)
  | None => (Raise (KeyError k), st)
  end.

(** [d.clear()] *)
Definition dict_clear (l : loc) : M unit := λ st,
  (Return (), update_dict l (λ _, ∅) st).

(** ** The mixin's methods *)

(** [registry(cls)]: "Returns copy of registry." *)
Definition registry : M (option loc) :=
  r ← get_REGISTRY;
  match r with
  | None => mret None
  | Some l => c ← dict_copy l; mret (Some c)
  end.

(** [retrieve(cls, name)]: "Retrieves name from registry." *)
Definition retrieve (name : string) : M (option Descriptor) :=
  r ← get_REGISTRY;
  match r with
  | None => mret None
  | Some l => dict_get l name
  end.

(** [_add_class(cls, name, new_cls)].  The source reads [cls._REGISTRY] for the
    test against [None], for [name in] and for the item assignment; nothing in
    between assigns the attribute, so the reads are one here. *)
Definition _add_class (name : string) (new_cls : Descriptor) : M unit :=
  r ← get_REGISTRY;
  match r with
  | None => mret ()
  | Some l =>
      present ← dict_contains l name;
      if (present : bool)
      then raise (TypeError (str_format "Type {} already exists in registry" name))
      else dict_setitem l name new_cls
  end.

(** [__new__(cls, name, bases, attrs)]: "Create new type and pass new class to
    _add_class."  The builtin [type.__new__] and the [_add_class] that
    [cls._add_class] resolves to (a subclass may override it) are taken as
    arguments; the mixin's own hook is [_add_class] above. *)
Definition __new__ {Bases Attrs : Type}
    (type_new : string → Bases → Attrs → M Descriptor)
    (cls_add_class : string → Descriptor → M unit)
    (name : string) (bases : Bases) (attrs : Attrs) : M Descriptor :=
  new_cls ← type_new name bases attrs;
  _ ← cls_add_class name new_cls;
  mret new_cls.

(** ** Registry states *)

(** The backing mapping, when [_REGISTRY] refers to a dict. *)
Definition mapping_of (st : state) : option dict :=
  l ← _REGISTRY st; heap st !! l.

(** An initialised [_REGISTRY] refers to a dict that exists. *)
Definition wf (st : state) : Prop :=
  match _REGISTRY st with
  | None => True
  | Some l => is_Some (heap st !! l)
  end.

(** The states a registry starts in: no backing mapping, or an empty one. *)
Definition initial (st : state) : Prop :=
  _REGISTRY st = None ∨ mapping_of st = Some ∅.

(** ** Clients *)

(** The three operations a client has. *)
Inductive op :=
| Register (name : string) (new_cls : Descriptor)
| Lookup (name : string)
| Snapshot.

(** The state an operation leaves, whether it returned or raised. *)
Definition step (st : state) (o : op) : state :=
  match o with
  | Register n d => (_add_class n d st).2
  | Lookup n => (retrieve n st).2
  | Snapshot => (registry st).2
  end.

Definition run (ops : list op) (st : state) : state := foldl step st ops.

(** The registrations of [ops] that an initialised registry took, oldest first. *)
Fixpoint accepted (ops : list op) (st : state) : list (string * Descriptor) :=
  match ops with
  | [] => []
  | o :: ops' =>
      let rest := accepted ops' (step st o) in
      match o with
      | Register n d =>
          match _REGISTRY st, (_add_class n d st).1 with
          | Some _, Return _ => (n, d) :: rest
          | _, _ => rest
          end
      | _ => rest
      end
  end.

(** What a client can do to a dict it holds a reference to. *)
Inductive mutation :=
| SetItem (k : string) (v : Descriptor)
| DelItem (k : string)
| Pop (k : string)
| Clear.

Definition mutate (l : loc) (mu : mutation) : M unit :=
  match mu with
  | SetItem k v => dict_setitem l k v
  | DelItem k => dict_delitem l k
  | Pop k => _ ← dict_pop l k; mret ()
  | Clear => dict_clear l
  end.

(** A client running mutations one statement after the other on the dict at
    [l]; a statement that raises leaves the state it raised in. *)
Definition mutate_all (l : loc) (mus : list mutation) (st : state) : state :=
  foldl (λ s mu, (mutate l mu s).2) st mus.

End Registry.

Arguments state : clear implicits.
Arguments M : clear implicits.
Arguments op : clear implicits.
Arguments mutation : clear implicits.

(** ** The fixtures of the source's tests *)

(** Class objects as far as the tests need them: what [type.__new__] was
    called with. *)
Record class_obj := Class {
  class_name : string;
  class_bases : list string;
  class_attrs : list string
}.

(** [type.__new__] on these class objects. *)
Definition make_class (name : string) (bases attrs : list string)
  : M class_obj class_obj := mret (Class name bases attrs).

(** [MetaNoRegistry] inherits [_REGISTRY = None] from the mixin. *)
Definition MetaNoRegistry : state class_obj := State None ∅.

(** [MetaWithRegistry] sets [_REGISTRY = dict()]. *)
Definition MetaWithRegistry : state class_obj := State (Some 1%positive) {[ 1%positive := ∅ ]}.

Definition BaseNoRegistry : class_obj := Class "BaseNoRegistry" [] [].
Definition BaseWithRegistry : class_obj := Class "BaseWithRegistry" [] ["abstract"].

(** [MetaWithRegistry] once the class statement of [BaseWithRegistry] has run. *)
Definition MetaWithRegistry_loaded : state class_obj :=
  State (Some 1%positive) {[ 1%positive := {[ "BaseWithRegistry" := BaseWithRegistry ]} ]}.

(** A client of the loaded [MetaWithRegistry]: registers a new name, takes a
    snapshot, and tries the registered name again. *)
Definition client_ops : list (op class_obj) :=
  [Register "Other" BaseNoRegistry; Snapshot;
   Register "BaseWithRegistry" BaseNoRegistry; Lookup "Other"].

(** ** Basic facts about the methods *)

(** ** Registrations and queries *)

Definition is_register {Descriptor : Type} (o : op Descriptor) : bool :=
  match o with
  | Register _ _ => true
  | Lookup _ | Snapshot => false
  end.

(** The operations of [ops] that are registrations, in order. *)
Definition registrations {Descriptor : Type} (ops : list (op Descriptor))
  : list (op Descriptor) := List.filter is_register ops.

(** Two states show the same registry: the same [_REGISTRY] and, behind it,
    the same mapping. *)
Definition same_registry {Descriptor : Type} (s1 s2 : state Descriptor) : Prop :=
  _REGISTRY s1 = _REGISTRY s2 ∧ mapping_of s1 = mapping_of s2.

(** Unfold a method down to the state it computes. *)
Ltac run_method :=
  unfold registry, retrieve, _add_class, get_REGISTRY, dict_copy, dict_get,
    dict_contains, dict_setitem, raise, mbind, M_bind, mret, M_ret.

Section Facts.

Context {Descriptor : Type}.
Implicit Types (st : state Descriptor) (m : gmap string Descriptor).
Implicit Types (n name : string) (d : Descriptor) (l r : loc).

Lemma mapping_of_Some st m :
  mapping_of st = Some m ↔ ∃ l, _REGISTRY st = Some l ∧ heap st !! l = Some m.
Proof.
  unfold mapping_of. destruct (_REGISTRY st) as [l|]; simpl.
  - split; [eauto | by intros (? & [= <-] & ?)].
  - split; [done | by intros (? & ? & ?)].
Qed.

Lemma mapping_of_None st : _REGISTRY st = None → mapping_of st = None.
Proof. unfold mapping_of. by intros ->. Qed.

Lemma deref_Some st l m : heap st !! l = Some m → deref st l = m.
Proof. unfold deref. apply lookup_total_correct. Qed.

Lemma retrieve_uninitialized st n :
  _REGISTRY st = None → retrieve n st = (Return None, st).
Proof. intros H. run_method. by rewrite H. Qed.

Lemma registry_uninitialized st :
  _REGISTRY st = None → registry st = (Return None, st).
Proof. intros H. run_method. by rewrite H. Qed.

Lemma add_class_uninitialized st n d :
  _REGISTRY st = None → _add_class n d st = (Return (), st).
Proof. intros H. run_method. by rewrite H. Qed.

Lemma retrieve_active st m n :
  mapping_of st = Some m → retrieve n st = (Return (m !! n), st).
Proof.
  intros (l & Hl & Hm)%mapping_of_Some.
  run_method.
  by rewrite Hl, (deref_Some _ _ _ Hm).
Qed.

Lemma registry_active st m :
  mapping_of st = Some m →
  registry st =
    (Return (Some (fresh (dom (heap st)))),
     State (_REGISTRY st) (<[fresh (dom (heap st)) := m]> (heap st))).
Proof.
  intros (l & Hl & Hm)%mapping_of_Some.
  run_method.
  rewrite Hl, (deref_Some _ _ _ Hm). by rewrite Hl.
Qed.

(** The dict that [registry()] allocates is not one that existed. *)
Lemma fresh_not_allocated st l m :
  heap st !! l = Some m → fresh (dom (heap st)) ≠ l.
Proof.
  intros Hm Heq. apply (is_fresh (dom (heap st))).
  rewrite Heq. apply elem_of_dom. eauto.
Qed.

Lemma mapping_of_update_same st l m f :
  _REGISTRY st = Some l → heap st !! l = Some m →
  mapping_of (update_dict l f st) = Some (f m).
Proof.
  intros Hl Hm. apply mapping_of_Some. exists l. split; [done|].
  simpl. by rewrite lookup_alter_eq, Hm.
Qed.

Lemma str_format_message n :
  str_format "Type {} already exists in registry" n
  = "Type " +:+ n +:+ " already exists in registry".
Proof. reflexivity. Qed.

Lemma add_class_fresh st l m n d :
  _REGISTRY st = Some l → heap st !! l = Some m → m !! n = None →
  _add_class n d st = (Return (), update_dict l (insert n d) st).
Proof.
  intros Hl Hm Hn.
  run_method.
  rewrite Hl, (deref_Some _ _ _ Hm), Hn.
  rewrite bool_decide_eq_false_2; [done | by apply is_Some_None].
Qed.

Lemma add_class_duplicate st m n d :
  mapping_of st = Some m → is_Some (m !! n) →
  _add_class n d st
  = (Raise (TypeError ("Type " +:+ n +:+ " already exists in registry")), st).
Proof.
  intros (l & Hl & Hm)%mapping_of_Some Hn.
  run_method.
  rewrite Hl, (deref_Some _ _ _ Hm).
  by rewrite bool_decide_eq_true_2, str_format_message.
Qed.

Lemma add_class_returns st m n d st' :
  mapping_of st = Some m → _add_class n d st = (Return (), st') →
  m !! n = None ∧ mapping_of st' = Some (<[n:=d]> m).
Proof.
  intros Hmap Hadd. destruct (m !! n) as [d'|] eqn:Hn.
  - rewrite (add_class_duplicate st m n d Hmap) in Hadd by eauto. discriminate.
  - destruct (proj1 (mapping_of_Some _ _) Hmap) as (l & Hl & Hm).
    rewrite (add_class_fresh st l m n d Hl Hm Hn) in Hadd.
    injection Hadd as <-. split; [done|].
    by apply (mapping_of_update_same st l m (insert n d)).
Qed.

(** No method assigns [cls._REGISTRY]. *)
Lemma step_REGISTRY st (o : op Descriptor) : _REGISTRY (step st o) = _REGISTRY st.
Proof.
  destruct o as [n d|n|]; simpl.
  - run_method.
    destruct (_REGISTRY st) as [l|] eqn:Hl; simpl; [|done].
    by destruct (bool_decide _).
  - run_method.
    by destruct (_REGISTRY st) as [l|] eqn:Hl.
  - run_method.
    by destruct (_REGISTRY st) as [l|] eqn:Hl.
Qed.

Lemma run_REGISTRY (ops : list (op Descriptor)) st :
  _REGISTRY (run ops st) = _REGISTRY st.
Proof.
  revert st. induction ops as [|o ops IH]; intros st; [done|].
  unfold run in *. simpl. by rewrite IH, step_REGISTRY.
Qed.

(** A mutation of the dict at [r] leaves [_REGISTRY] and every other dict alone. *)
Lemma mutate_frame r (mu : mutation Descriptor) st :
  _REGISTRY (mutate r mu st).2 = _REGISTRY st ∧
  ∀ l, l ≠ r → heap (mutate r mu st).2 !! l = heap st !! l.
Proof.
  destruct mu as [k v|k|k|]; simpl;
    unfold dict_setitem, dict_delitem, dict_pop, dict_clear, mbind, M_bind;
    try destruct (deref st r !! k); simpl;
    (split; [done | intros l Hne; by rewrite ?lookup_alter_ne]).
Qed.

Lemma mutate_all_frame r (mus : list (mutation Descriptor)) st :
  _REGISTRY (mutate_all r mus st) = _REGISTRY st ∧
  ∀ l, l ≠ r → heap (mutate_all r mus st) !! l = heap st !! l.
Proof.
  revert st. induction mus as [|mu mus IH]; intros st; [done|].
  unfold mutate_all in *. simpl.
  destruct (IH (mutate r mu st).2) as [IH1 IH2].
  destruct (mutate_frame r mu st) as [H1 H2].
  split; [congruence|]. intros l Hne. by rewrite IH2, H2.
Qed.

(** Mutations do not deallocate. *)
Lemma mutate_all_allocated r (mus : list (mutation Descriptor)) st l :
  is_Some (heap st !! l) → is_Some (heap (mutate_all r mus st) !! l).
Proof.
  revert st. induction mus as [|mu mus IH]; intros st Hl; [done|].
  unfold mutate_all in *. simpl. apply IH.
  destruct mu as [k v|k|k|]; simpl;
    unfold dict_setitem, dict_delitem, dict_pop, dict_clear, mbind, M_bind;
    try destruct (deref st r !! k); simpl; try done;
    rewrite lookup_alter_is_Some; done.
Qed.

Lemma registry_keeps_mapping st m :
  mapping_of st = Some m → mapping_of (registry st).2 = Some m.
Proof.
  intros Hmap. rewrite (registry_active st m Hmap). cbn [snd].
  destruct (proj1 (mapping_of_Some _ _) Hmap) as (l & Hl & Hm).
  apply mapping_of_Some. exists l. split; [done|]. simpl.
  rewrite lookup_insert_ne; [done | by apply (fresh_not_allocated st l m)].
Qed.

(** One operation on a registry with a backing mapping: the mapping it leaves
    is the old one plus the registration it took, if it took one. *)
Lemma step_accepted st m (o : op Descriptor) :
  mapping_of st = Some m →
  ∃ m', mapping_of (step st o) = Some m' ∧
        map_to_list m' ≡ₚ (map_to_list m ++ accepted [o] st)%list.
Proof.
  intros Hmap. destruct (proj1 (mapping_of_Some _ _) Hmap) as (l & Hl & Hm).
  destruct o as [n d|n|]; cbn [step accepted].
  - rewrite Hl. destruct (m !! n) as [d'|] eqn:Hn.
    + rewrite (add_class_duplicate st m n d Hmap) by eauto. cbn [fst snd].
      exists m. by rewrite app_nil_r.
    + rewrite (add_class_fresh st l m n d Hl Hm Hn). cbn [fst snd].
      exists (<[n:=d]> m). split.
      * by apply (mapping_of_update_same st l m (insert n d)).
      * rewrite (map_to_list_insert m n d Hn). apply Permutation_cons_append.
  - rewrite (retrieve_active _ _ n Hmap). cbn [snd].
    exists m. by rewrite app_nil_r.
  - exists m. split; [by apply registry_keeps_mapping | by rewrite app_nil_r].
Qed.

Lemma accepted_cons (o : op Descriptor) ops st :
  accepted (o :: ops) st = (accepted [o] st ++ accepted ops (step st o))%list.
Proof.
  destruct o as [n d|n|]; cbn [accepted]; [|done..].
  destruct (_REGISTRY st); [|done]. by destruct ((_add_class n d st).1).
Qed.

Lemma run_accepted (ops : list (op Descriptor)) st m :
  mapping_of st = Some m →
  ∃ m', mapping_of (run ops st) = Some m' ∧
        map_to_list m' ≡ₚ (map_to_list m ++ accepted ops st)%list.
Proof.
  revert st m. induction ops as [|o ops IH]; intros st m Hmap.
  - exists m. by rewrite app_nil_r.
  - destruct (step_accepted st m o Hmap) as (m1 & Hmap1 & Hperm1).
    destruct (IH _ _ Hmap1) as (m2 & Hmap2 & Hperm2).
    exists m2. split; [done|].
    rewrite Hperm2, Hperm1, (accepted_cons o ops st).
    by rewrite (assoc_L app).
Qed.

End Facts.

(** ** Registration, lookup and snapshot *)

Section Contract.

Context {Descriptor : Type}.
Implicit Types (st : state Descriptor) (m : gmap string Descriptor).
Implicit Types (n name : string) (d : Descriptor) (l r : loc).

(** C3 (P1, absence on uninitialized): when [_REGISTRY] is [None], [retrieve]
    returns [None] for every name and [registry] returns [None]; neither
    changes the state. *)
Theorem uninitialized_is_absent st :
  _REGISTRY st = None →
  (∀ n, retrieve n st = (Return None, st)) ∧ registry st = (Return None, st).
Proof.
  intros Hnone. split.
  - intros n. by apply retrieve_uninitialized.
  - by apply registry_uninitialized.
Qed.

(** C1 (P2, registration visibility): on a registry with a backing mapping,
    once [_add_class n d] has returned, [retrieve n] returns [d] and
    [registry()] returns a dict that holds [d] under [n]. *)
Theorem registration_visible st m n d st' :
  mapping_of st = Some m →
  _add_class n d st = (Return (), st') →
  retrieve n st' = (Return (Some d), st') ∧
  ∃ r st'' snap,
    registry st' = (Return (Some r), st'') ∧
    heap st'' !! r = Some snap ∧ snap !! n = Some d.
Proof.
  intros Hmap Hadd.
  destruct (add_class_returns _ _ _ _ _ Hmap Hadd) as [_ Hmap'].
  split.
  - rewrite (retrieve_active _ _ n Hmap'). by rewrite lookup_insert_eq.
  - eexists _, _, (<[n:=d]> m). split; [by apply registry_active|].
    simpl. split; [by rewrite lookup_insert_eq | by rewrite lookup_insert_eq].
Qed.

(** C2 (P3, duplicate rejection): when the backing mapping already has [d1]
    under [n], [_add_class n d2] raises, the state it leaves is the state it
    started in, the mapping is the same and [retrieve n] still returns [d1]. *)
Theorem duplicate_rejected st m n d1 d2 :
  mapping_of st = Some m → m !! n = Some d1 →
  ∃ msg st',
    _add_class n d2 st = (Raise (TypeError msg), st') ∧
    st' = st ∧ mapping_of st' = Some m ∧
    retrieve n st' = (Return (Some d1), st').
Proof.
  intros Hmap Hn. eexists _, st. split; [|split; [done|split; [done|]]].
  - apply (add_class_duplicate st m n d2 Hmap). eauto.
  - by rewrite (retrieve_active _ _ n Hmap), Hn.
Qed.

(** C5 (P5, no-op on uninitialized): when [_REGISTRY] is [None],
    [_add_class n d] returns without raising and leaves the state as it was,
    [retrieve n] afterwards returns [None], and [_REGISTRY] is still [None]
    after any further operations. *)
Theorem register_uninitialized_noop st n d :
  _REGISTRY st = None →
  _add_class n d st = (Return (), st) ∧
  retrieve n (_add_class n d st).2 = (Return None, (_add_class n d st).2) ∧
  ∀ ops, _REGISTRY (run (Register n d :: ops) st) = None.
Proof.
  intros Hnone. rewrite (add_class_uninitialized st n d Hnone). cbn [snd].
  split; [done|]. split; [by apply retrieve_uninitialized|].
  intros ops. by rewrite run_REGISTRY.
Qed.

(** C9: a registry whose backing mapping is empty is not an uninitialized one:
    [registry()] returns a dict, which is empty, not [None]; [retrieve] returns
    [None] for every name. *)
Theorem active_empty_distinct st :
  mapping_of st = Some ∅ →
  (∃ r st', registry st = (Return (Some r), st') ∧ heap st' !! r = Some ∅) ∧
  (registry st).1 ≠ Return None ∧
  (∀ n, retrieve n st = (Return None, st)).
Proof.
  intros Hmap. rewrite (registry_active st ∅ Hmap). split; [|split].
  - eexists _, _. split; [done|]. simpl. by rewrite lookup_insert_eq.
  - simpl. discriminate.
  - intros n. by rewrite (retrieve_active _ _ n Hmap), lookup_empty.
Qed.

(** C10: the failure on a duplicate name is Python's [TypeError], and its
    message is "Type <name> already exists in registry". *)
Theorem duplicate_is_TypeError st m n d :
  mapping_of st = Some m → is_Some (m !! n) →
  (_add_class n d st).1
  = Raise (TypeError ("Type " +:+ n +:+ " already exists in registry")).
Proof.
  intros Hmap Hn. by rewrite (add_class_duplicate st m n d Hmap Hn).
Qed.

(** C7: raising on a duplicate name is the only failure.  [_add_class n d]
    raises exactly when there is a backing mapping and [n] is in it, and what
    it raises is that [TypeError]; whatever the name and the descriptor,
    [retrieve] and [registry] return, and [retrieve] of a name the mapping
    does not have returns [None]. *)
Theorem duplicate_is_only_failure st n d :
  ((∃ e, (_add_class n d st).1 = Raise e) ↔
   (∃ m, mapping_of st = Some m ∧ is_Some (m !! n))) ∧
  (∀ e, (_add_class n d st).1 = Raise e →
        e = TypeError ("Type " +:+ n +:+ " already exists in registry")) ∧
  (∃ v, (retrieve n st).1 = Return v) ∧
  (∃ v, (registry st).1 = Return v) ∧
  (∀ m, mapping_of st = Some m → m !! n = None →
        retrieve n st = (Return None, st)).
Proof.
  assert (Hraise : ∀ e, (_add_class n d st).1 = Raise e →
            e = TypeError ("Type " +:+ n +:+ " already exists in registry") ∧
            ∃ m, mapping_of st = Some m ∧ is_Some (m !! n)).
  { intros e. unfold _add_class, get_REGISTRY, dict_contains, dict_setitem,
      raise, mbind, M_bind, mapping_of.
    destruct (_REGISTRY st) as [l|]; simpl; [|done].
    case_bool_decide as Hin; simpl; [|done].
    intros [= <-]. split; [done|].
    unfold deref in Hin. rewrite lookup_total_alt in Hin.
    destruct (heap st !! l) as [m|]; simpl in Hin; [by eauto|].
    rewrite lookup_empty in Hin. by destruct Hin. }
  split; [split|split; [|split; [|split]]].
  - intros [e He]. by destruct (Hraise e He).
  - intros (m & Hmap & Hn). rewrite (add_class_duplicate st m n d Hmap Hn). eauto.
  - intros e He. by destruct (Hraise e He).
  - run_method.
    destruct (_REGISTRY st); simpl; eauto.
  - run_method.
    destruct (_REGISTRY st); simpl; eauto.
  - intros m Hmap Hn. by rewrite (retrieve_active _ _ n Hmap), Hn.
Qed.

(** C6 (P4, snapshot isolation): [registry()] on a registry with backing
    mapping [m] returns a new dict with the entries of [m].  Whatever item
    assignments, deletions, pops and clears a client then runs on the returned
    dict, the backing mapping is still [m], [retrieve] returns what it
    returned before, and a later [registry()] again returns a dict with the
    entries of [m]. *)
Theorem snapshot_isolation st m r st1 mus :
  mapping_of st = Some m →
  registry st = (Return (Some r), st1) →
  heap st1 !! r = Some m ∧
  mapping_of (mutate_all r mus st1) = Some m ∧
  (∀ n, (retrieve n (mutate_all r mus st1)).1 = (retrieve n st).1) ∧
  ∃ r' st3,
    registry (mutate_all r mus st1) = (Return (Some r'), st3) ∧
    r' ≠ r ∧ heap st3 !! r' = Some m.
Proof.
  intros Hmap Hreg.
  rewrite (registry_active st m Hmap) in Hreg. injection Hreg as <- <-.
  destruct (proj1 (mapping_of_Some _ _) Hmap) as (l & Hl & Hm).
  pose proof (fresh_not_allocated st l m Hm) as Hfresh.
  set (r := fresh (dom (heap st))) in *.
  set (st1 := State (_REGISTRY st) (<[r:=m]> (heap st))).
  destruct (mutate_all_frame r mus st1) as [Hreg2 Hheap2].
  assert (Hmap2 : mapping_of (mutate_all r mus st1) = Some m).
  { apply mapping_of_Some. exists l. split; [by rewrite Hreg2|].
    rewrite Hheap2 by done. simpl. by rewrite lookup_insert_ne. }
  split; [simpl; by rewrite lookup_insert_eq|]. split; [done|]. split.
  - intros n. by rewrite (retrieve_active _ _ n Hmap2), (retrieve_active _ _ n Hmap).
  - eexists _, _. split; [by apply registry_active|]. split.
    + intros Heq. apply (is_fresh (dom (heap (mutate_all r mus st1)))).
      rewrite Heq. apply elem_of_dom.
      destruct (mutate_all_allocated r mus st1 r) as [? ?]; [|done].
      simpl. rewrite lookup_insert_eq. eauto.
    + simpl. by rewrite lookup_insert_eq.
Qed.

(** C8: names are unique.  In the state reached from an initial state
    ([_REGISTRY] is [None], or refers to an empty dict) by any sequence of
    registrations, lookups and snapshots, an initialised [_REGISTRY] refers to
    a dict; the entries of that dict are the registrations that returned,
    each once, and no two of them have the same name.  A registration that
    returns on it found its name absent and adds that one entry: the mapping
    is one larger and every other name maps to what it mapped to. *)
Theorem names_unique st0 ops :
  initial st0 →
  wf (run ops st0) ∧
  (∀ m, mapping_of (run ops st0) = Some m →
     NoDup (map_to_list m).*1 ∧
     map_to_list m ≡ₚ accepted ops st0 ∧
     NoDup (accepted ops st0).*1) ∧
  (∀ m n d st', mapping_of (run ops st0) = Some m →
     _add_class n d (run ops st0) = (Return (), st') →
     m !! n = None ∧
     mapping_of st' = Some (<[n:=d]> m) ∧
     size (<[n:=d]> m) = S (size m) ∧
     ∀ n', n' ≠ n → <[n:=d]> m !! n' = m !! n').
Proof.
  intros Hinit. split; [|split].
  - unfold wf. rewrite run_REGISTRY. destruct Hinit as [Hnone|Hempty].
    + by rewrite Hnone.
    + destruct (run_accepted ops st0 ∅ Hempty) as (m' & Hmap' & _).
      apply mapping_of_Some in Hmap' as (l & Hl & Hm).
      rewrite run_REGISTRY in Hl. rewrite Hl. eauto.
  - intros m Hmap. destruct Hinit as [Hnone|Hempty].
    + rewrite mapping_of_None in Hmap; [done | by rewrite run_REGISTRY].
    + destruct (run_accepted ops st0 ∅ Hempty) as (m' & Hmap' & Hperm).
      rewrite Hmap in Hmap'. injection Hmap' as <-.
      rewrite map_to_list_empty in Hperm. simpl in Hperm.
      split; [apply NoDup_fst_map_to_list|]. split; [done|].
      rewrite <- Hperm. apply NoDup_fst_map_to_list.
  - intros m n d st' Hmap Hadd.
    destruct (add_class_returns _ _ _ _ _ Hmap Hadd) as [Hn Hmap'].
    split; [done|]. split; [done|]. split.
    + by apply map_size_insert_None.
    + intros n' Hne. by rewrite lookup_insert_ne.
Qed.

End Contract.

(** ** The type-creation hook *)

Section New.

Context {Descriptor Bases Attrs : Type}.
Variable type_new : string → Bases → Attrs → M Descriptor Descriptor.
Implicit Types (st : state Descriptor) (m : gmap string Descriptor).

(** [__new__] hands the name and the class that [type.__new__] made to
    whatever [cls._add_class] is, and returns that class if the hook returns. *)
Lemma new_calls_hook hook name bases attrs st c st1 :
  type_new name bases attrs st = (Return c, st1) →
  __new__ type_new hook name bases attrs st =
    match hook name c st1 with
    | (Return _, st2) => (Return c, st2)
    | (Raise e, st2) => (Raise e, st2)
    end.
Proof.
  intros Hnew. unfold __new__, mbind, M_bind. rewrite Hnew.
  by destruct (hook name c st1) as [[[]|e] st2].
Qed.


(** On an uninitialized registry the class is made and returned, and nothing
    is recorded. *)
Lemma new_uninitialized name bases attrs st c st1 :
  type_new name bases attrs st = (Return c, st1) →
  _REGISTRY st1 = None →
  __new__ type_new _add_class name bases attrs st = (Return c, st1).
Proof.
  intros Hnew Hnone. rewrite (new_calls_hook _ _ _ _ _ _ _ Hnew).
  by rewrite (add_class_uninitialized st1 name c Hnone).
Qed.

(** C4 (amended): for a registry with a backing mapping, every class that
    [__new__] returns is recorded under its type name.  [__new__] passes the
    name and the class made by [type.__new__] to [_add_class]; when it returns,
    it returns that class, [_add_class] has added it to the mapping under
    [name], and [retrieve name] returns it. *)
Theorem new_registers_when_active name bases attrs st c st1 m :
  type_new name bases attrs st = (Return c, st1) →
  mapping_of st1 = Some m →
  __new__ type_new _add_class name bases attrs st =
    match _add_class name c st1 with
    | (Return _, st2) => (Return c, st2)
    | (Raise e, st2) => (Raise e, st2)
    end ∧
  ∀ c' st', __new__ type_new _add_class name bases attrs st = (Return c', st') →
    c' = c ∧
    _add_class name c st1 = (Return (), st') ∧
    mapping_of st' = Some (<[name:=c]> m) ∧
    retrieve name st' = (Return (Some c), st').
Proof.
  intros Hnew Hmap.
  pose proof (new_calls_hook _add_class _ _ _ _ _ _ Hnew) as Hcall.
  split; [done|]. intros c' st' Hret. rewrite Hcall in Hret.
  destruct (_add_class name c st1) as [[[]|e] st2] eqn:Hadd; [|discriminate].
  injection Hret as <- <-.
  destruct (add_class_returns _ _ _ _ _ Hmap Hadd) as [_ Hmap'].
  split; [done|]. split; [done|]. split; [done|].
  by rewrite (retrieve_active _ _ name Hmap'), lookup_insert_eq.
Qed.

End New.

(** ** The source's tests, and the theorems at its fixtures *)

(** [BaseNoRegistry] and [BaseWithRegistry] are made by the class statements
    of the test module, through [__new__]. *)
Example class_statement_BaseWithRegistry :
  __new__ make_class _add_class "BaseWithRegistry" [] ["abstract"] MetaWithRegistry
  = (Return BaseWithRegistry, MetaWithRegistry_loaded).
Proof. vm_compute. reflexivity. Qed.

(** [test_registry_method_registry_initialized] *)
Example test_registry_method_registry_initialized :
  ∃ r st',
    registry MetaWithRegistry_loaded = (Return (Some r), st') ∧
    heap st' !! r = Some {[ "BaseWithRegistry" := BaseWithRegistry ]}.
Proof. eexists _, _. split; vm_compute; reflexivity. Qed.

(** [test_retrieve_method_registry_initialized] *)
Example test_retrieve_method_registry_initialized :
  (retrieve "BaseWithRegistry" MetaWithRegistry_loaded).1 = Return (Some BaseWithRegistry).
Proof. vm_compute. reflexivity. Qed.

(** C4, as stated, fails on [MetaNoRegistry]: the class statement of
    [BaseNoRegistry] goes through [__new__], which returns the new class, and
    the class is not recorded ([test_retrieve_method_registry_none],
    [test_registry_method_registry_none]). *)
Lemma new_uninitialized_not_recorded :
  __new__ make_class _add_class "BaseNoRegistry" [] [] MetaNoRegistry
  = (Return BaseNoRegistry, MetaNoRegistry) ∧
  retrieve "BaseNoRegistry" MetaNoRegistry = (Return None, MetaNoRegistry) ∧
  (retrieve "BaseNoRegistry" MetaNoRegistry).1 ≠ Return (Some BaseNoRegistry) ∧
  registry MetaNoRegistry = (Return None, MetaNoRegistry).
Proof.
  split; [vm_compute; reflexivity|]. split; [vm_compute; reflexivity|].
  split; [vm_compute; discriminate | vm_compute; reflexivity].
Qed.

Lemma new_registers_when_active_witness :
  make_class "BaseWithRegistry" [] ["abstract"] MetaWithRegistry
  = (Return BaseWithRegistry, MetaWithRegistry) ∧
  mapping_of MetaWithRegistry = Some ∅ ∧
  ∀ c' st',
    __new__ make_class _add_class "BaseWithRegistry" [] ["abstract"] MetaWithRegistry
    = (Return c', st') →
    c' = BaseWithRegistry ∧
    _add_class "BaseWithRegistry" BaseWithRegistry MetaWithRegistry = (Return (), st') ∧
    mapping_of st' = Some (<["BaseWithRegistry":=BaseWithRegistry]> ∅) ∧
    retrieve "BaseWithRegistry" st' = (Return (Some BaseWithRegistry), st').
Proof.
  assert (H1 : make_class "BaseWithRegistry" [] ["abstract"] MetaWithRegistry
               = (Return BaseWithRegistry, MetaWithRegistry)) by reflexivity.
  assert (H2 : mapping_of MetaWithRegistry = Some ∅) by (vm_compute; reflexivity).
  split; [exact H1|]. split; [exact H2|].
  exact (proj2 (new_registers_when_active make_class _ _ _ _ _ _ _ H1 H2)).
Defined.

Lemma uninitialized_is_absent_witness :
  _REGISTRY MetaNoRegistry = None ∧
  (∀ n, retrieve n MetaNoRegistry = (Return None, MetaNoRegistry)) ∧
  registry MetaNoRegistry = (Return None, MetaNoRegistry).
Proof.
  split; [reflexivity|]. apply (uninitialized_is_absent MetaNoRegistry). reflexivity.
Defined.

Lemma registration_visible_witness :
  mapping_of MetaWithRegistry = Some ∅ ∧
  _add_class "BaseWithRegistry" BaseWithRegistry MetaWithRegistry
  = (Return (), MetaWithRegistry_loaded) ∧
  retrieve "BaseWithRegistry" MetaWithRegistry_loaded
  = (Return (Some BaseWithRegistry), MetaWithRegistry_loaded) ∧
  ∃ r st'' snap,
    registry MetaWithRegistry_loaded = (Return (Some r), st'') ∧
    heap st'' !! r = Some snap ∧ snap !! "BaseWithRegistry" = Some BaseWithRegistry.
Proof.
  assert (H1 : mapping_of MetaWithRegistry = Some ∅) by (vm_compute; reflexivity).
  assert (H2 : _add_class "BaseWithRegistry" BaseWithRegistry MetaWithRegistry
               = (Return (), MetaWithRegistry_loaded)) by (vm_compute; reflexivity).
  split; [exact H1|]. split; [exact H2|].
  exact (registration_visible _ _ _ _ _ H1 H2).
Defined.

(** Scenario C: a second class named [BaseWithRegistry]. *)
Lemma duplicate_rejected_witness :
  mapping_of MetaWithRegistry_loaded = Some {[ "BaseWithRegistry" := BaseWithRegistry ]} ∧
  ({[ "BaseWithRegistry" := BaseWithRegistry ]} : gmap string class_obj) !! "BaseWithRegistry"
  = Some BaseWithRegistry ∧
  ∃ msg st',
    _add_class "BaseWithRegistry" (Class "BaseWithRegistry" [] []) MetaWithRegistry_loaded
    = (Raise (TypeError msg), st') ∧
    st' = MetaWithRegistry_loaded ∧
    mapping_of st' = Some {[ "BaseWithRegistry" := BaseWithRegistry ]} ∧
    retrieve "BaseWithRegistry" st' = (Return (Some BaseWithRegistry), st').
Proof.
  assert (H1 : mapping_of MetaWithRegistry_loaded
               = Some {[ "BaseWithRegistry" := BaseWithRegistry ]})
    by (vm_compute; reflexivity).
  assert (H2 : ({[ "BaseWithRegistry" := BaseWithRegistry ]} : gmap string class_obj)
                 !! "BaseWithRegistry" = Some BaseWithRegistry)
    by (vm_compute; reflexivity).
  split; [exact H1|]. split; [exact H2|].
  exact (duplicate_rejected _ _ _ _ (Class "BaseWithRegistry" [] []) H1 H2).
Defined.

Lemma register_uninitialized_noop_witness :
  _REGISTRY MetaNoRegistry = None ∧
  _add_class "BaseNoRegistry" BaseNoRegistry MetaNoRegistry = (Return (), MetaNoRegistry).
Proof.
  split; [reflexivity|].
  apply (register_uninitialized_noop MetaNoRegistry "BaseNoRegistry" BaseNoRegistry).
  reflexivity.
Defined.

Lemma active_empty_distinct_witness :
  mapping_of MetaWithRegistry = Some ∅ ∧
  (registry MetaWithRegistry).1 ≠ Return None.
Proof.
  assert (H1 : mapping_of MetaWithRegistry = Some ∅) by (vm_compute; reflexivity).
  split; [exact H1|]. exact (proj1 (proj2 (active_empty_distinct _ H1))).
Defined.

Lemma duplicate_is_TypeError_witness :
  (_add_class "BaseWithRegistry" (Class "BaseWithRegistry" [] []) MetaWithRegistry_loaded).1
  = Raise (TypeError "Type BaseWithRegistry already exists in registry").
Proof.
  apply (duplicate_is_TypeError MetaWithRegistry_loaded
           {[ "BaseWithRegistry" := BaseWithRegistry ]}).
  - vm_compute. reflexivity.
  - exists BaseWithRegistry. vm_compute. reflexivity.
Defined.

(** A client that takes a snapshot of the loaded registry and empties it,
    puts another class under the registered name and deletes a name that is
    not there. *)
Lemma snapshot_isolation_witness :
  mapping_of (mutate_all 2%positive
                [Clear; SetItem "BaseWithRegistry" BaseNoRegistry; DelItem "Other"]
                (registry MetaWithRegistry_loaded).2)
  = Some {[ "BaseWithRegistry" := BaseWithRegistry ]}.
Proof.
  apply (snapshot_isolation MetaWithRegistry_loaded
           {[ "BaseWithRegistry" := BaseWithRegistry ]} 2%positive
           (registry MetaWithRegistry_loaded).2).
  - vm_compute. reflexivity.
  - vm_compute. reflexivity.
Defined.

Lemma names_unique_witness :
  initial MetaWithRegistry ∧
  wf (run [Register "A" BaseNoRegistry; Snapshot; Register "A" BaseWithRegistry;
           Lookup "A"; Register "B" BaseWithRegistry] MetaWithRegistry).
Proof.
  assert (H1 : initial MetaWithRegistry) by (right; vm_compute; reflexivity).
  split; [exact H1|]. exact (proj1 (names_unique _ _ H1)).
Defined.

(** ** What registrations, lookups and snapshots do to each other *)

Section Lifecycle.

Context {Descriptor : Type}.
Implicit Types (st : state Descriptor) (m : gmap string Descriptor).
Implicit Types (n name : string) (d : Descriptor) (l r : loc).
Implicit Types (o : op Descriptor) (ops : list (op Descriptor)).

Lemma run_cons o ops st : run (o :: ops) st = run ops (step st o).
Proof. reflexivity. Qed.

Lemma step_mapping_grows st m o :
  mapping_of st = Some m → ∃ m', mapping_of (step st o) = Some m' ∧ m ⊆ m'.
Proof.
  intros Hmap. destruct (proj1 (mapping_of_Some _ _) Hmap) as (l & Hl & Hm).
  destruct o as [n d|n|]; cbn [step].
  - destruct (m !! n) as [d'|] eqn:Hn.
    + rewrite (add_class_duplicate st m n d Hmap) by eauto. by exists m.
    + rewrite (add_class_fresh st l m n d Hl Hm Hn). exists (<[n:=d]> m). split.
      * by apply (mapping_of_update_same st l m (insert n d)).
      * by apply insert_subseteq.
  - rewrite (retrieve_active _ _ n Hmap). by exists m.
  - exists m. split; [by apply registry_keeps_mapping | done].
Qed.

Lemma run_mapping_grows ops st m :
  mapping_of st = Some m → ∃ m', mapping_of (run ops st) = Some m' ∧ m ⊆ m'.
Proof.
  revert st m. induction ops as [|o ops IH]; intros st m Hmap; [by exists m|].
  destruct (step_mapping_grows st m o Hmap) as (m1 & Hmap1 & Hsub1).
  destruct (IH _ _ Hmap1) as (m2 & Hmap2 & Hsub2).
  exists m2. split; [done | by transitivity m1].
Qed.

(** X1: what is registered stays registered.  No sequence of registrations,
    lookups and snapshots removes an entry or puts another class under its
    name: [retrieve] keeps returning the class first registered. *)
Theorem registered_entry_persists st m n d ops :
  mapping_of st = Some m → m !! n = Some d →
  retrieve n (run ops st) = (Return (Some d), run ops st).
Proof.
  intros Hmap Hn.
  destruct (run_mapping_grows ops st m Hmap) as (m' & Hmap' & Hsub).
  rewrite (retrieve_active _ _ n Hmap').
  by rewrite (lookup_weaken m m' n d Hn Hsub).
Qed.

(** X2: a name once taken stays taken.  After any further operations,
    [_add_class] under a registered name still raises the [TypeError] and
    changes nothing. *)
Theorem taken_name_stays_taken st m n d' ops :
  mapping_of st = Some m → is_Some (m !! n) →
  _add_class n d' (run ops st)
  = (Raise (TypeError ("Type " +:+ n +:+ " already exists in registry")),
     run ops st).
Proof.
  intros Hmap [d Hn].
  destruct (run_mapping_grows ops st m Hmap) as (m' & Hmap' & Hsub).
  apply (add_class_duplicate _ m' n d' Hmap').
  exists d. by apply (lookup_weaken m m' n d).
Qed.

(** An operation leaves alone every dict that exists and is not the
    registry's own. *)
Lemma step_heap_other st r o :
  is_Some (heap st !! r) → _REGISTRY st ≠ Some r →
  heap (step st o) !! r = heap st !! r.
Proof.
  intros Hr Hne. destruct o as [n d|n|]; cbn [step]; run_method.
  - destruct (_REGISTRY st) as [l|] eqn:Hl; simpl; [|done].
    case_bool_decide; simpl; [done|].
    rewrite lookup_alter_ne; [done | congruence].
  - by destruct (_REGISTRY st) as [l|] eqn:Hl.
  - destruct (_REGISTRY st) as [l|] eqn:Hl; simpl; [|done].
    rewrite lookup_insert_ne; [done|].
    intros Heq. apply (is_fresh (dom (heap st))). rewrite Heq.
    by apply elem_of_dom.
Qed.

Lemma run_heap_other ops st r :
  is_Some (heap st !! r) → _REGISTRY st ≠ Some r →
  heap (run ops st) !! r = heap st !! r.
Proof.
  revert st. induction ops as [|o ops IH]; intros st Hr Hne; [done|].
  rewrite run_cons, IH.
  - by apply step_heap_other.
  - by rewrite step_heap_other.
  - by rewrite step_REGISTRY.
Qed.

(** X3: a snapshot is frozen.  The dict that [registry()] returned keeps the
    entries the registry had at that moment, whatever is registered, looked
    up or snapshotted afterwards. *)
Theorem snapshot_is_frozen st m r st1 ops :
  mapping_of st = Some m →
  registry st = (Return (Some r), st1) →
  heap (run ops st1) !! r = Some m.
Proof.
  intros Hmap Hreg.
  rewrite (registry_active st m Hmap) in Hreg. injection Hreg as <- <-.
  destruct (proj1 (mapping_of_Some _ _) Hmap) as (l & Hl & Hm).
  rewrite run_heap_other; simpl.
  - by rewrite lookup_insert_eq.
  - rewrite lookup_insert_eq. eauto.
  - rewrite Hl. intros [= Heq]. by apply (fresh_not_allocated st l m Hm).
Qed.

Lemma deref_after_copy st l reg :
  deref (State reg (<[fresh (dom (heap st)) := deref st l]> (heap st))) l
  = deref st l.
Proof.
  unfold deref. simpl.
  destruct (decide (fresh (dom (heap st)) = l)) as [->|Hne].
  - by rewrite lookup_total_insert_eq.
  - by rewrite lookup_total_insert_ne.
Qed.

(** X4: enumeration and lookup agree.  The dict that [registry()] returns has,
    under every name, what [retrieve] of that name returns, before the call
    and after it. *)
Theorem snapshot_agrees_with_retrieve st r st' :
  registry st = (Return (Some r), st') →
  ∃ snap, heap st' !! r = Some snap ∧
    ∀ n, (retrieve n st).1 = Return (snap !! n) ∧
         retrieve n st' = (Return (snap !! n), st').
Proof.
  run_method. destruct (_REGISTRY st) as [l|] eqn:Hl; simpl; [|discriminate].
  intros [= <- <-]. exists (deref st l). simpl.
  split; [by rewrite lookup_insert_eq|]. intros n. split; [done|].
  rewrite Hl. by rewrite deref_after_copy.
Qed.

(** X5: an uninitialized registry is inert.  No sequence of registrations,
    lookups and snapshots changes the state at all (a snapshot does not even
    allocate), and none of the registrations is taken. *)
Theorem uninitialized_is_inert st ops :
  _REGISTRY st = None → run ops st = st ∧ accepted ops st = [].
Proof.
  intros Hnone. induction ops as [|o ops [IHrun IHacc]]; [done|].
  assert (Hstep : step st o = st).
  { destruct o as [n d|n|]; cbn [step].
    - by rewrite (add_class_uninitialized st n d Hnone).
    - by rewrite (retrieve_uninitialized st n Hnone).
    - by rewrite (registry_uninitialized st Hnone). }
  split.
  - by rewrite run_cons, Hstep.
  - rewrite accepted_cons, Hstep, IHacc, app_nil_r.
    destruct o as [n d|n|]; cbn [accepted]; [|done..].
    by rewrite Hnone.
Qed.

Lemma wf_cases st :
  wf st ↔ _REGISTRY st = None ∨ ∃ m, mapping_of st = Some m.
Proof.
  unfold wf, mapping_of. destruct (_REGISTRY st) as [l|]; simpl.
  - split; [intros [m Hm]; eauto | by intros [|[m Hm]]; eauto].
  - split; [by left | done].
Qed.

Lemma step_wf st o : wf st → wf (step st o).
Proof.
  intros [Hnone|[m Hmap]]%wf_cases; apply wf_cases.
  - left. by rewrite step_REGISTRY.
  - right. destruct (step_mapping_grows st m o Hmap) as (m' & Hmap' & _). eauto.
Qed.

(** What [_add_class] returns or raises, and the registry it leaves, depend
    on the registry only. *)
Lemma add_class_same_registry s1 s2 n d :
  wf s1 → wf s2 → same_registry s1 s2 →
  (_add_class n d s1).1 = (_add_class n d s2).1 ∧
  same_registry (_add_class n d s1).2 (_add_class n d s2).2.
Proof.
  intros Hwf1 Hwf2 [Hreg Hmap].
  apply wf_cases in Hwf1 as [Hnone|[m Hmap1]].
  - rewrite (add_class_uninitialized s1 n d Hnone).
    rewrite (add_class_uninitialized s2 n d) by congruence. done.
  - assert (Hmap2 : mapping_of s2 = Some m) by congruence.
    destruct (m !! n) as [d'|] eqn:Hn.
    + rewrite (add_class_duplicate s1 m n d Hmap1) by eauto.
      rewrite (add_class_duplicate s2 m n d Hmap2) by eauto. done.
    + destruct (proj1 (mapping_of_Some _ _) Hmap1) as (l1 & Hl1 & Hm1).
      destruct (proj1 (mapping_of_Some _ _) Hmap2) as (l2 & Hl2 & Hm2).
      rewrite (add_class_fresh s1 l1 m n d Hl1 Hm1 Hn).
      rewrite (add_class_fresh s2 l2 m n d Hl2 Hm2 Hn).
      split; [done|]. split; [done|]. cbn [snd].
      rewrite (mapping_of_update_same s1 l1 m (insert n d) Hl1 Hm1).
      by rewrite (mapping_of_update_same s2 l2 m (insert n d) Hl2 Hm2).
Qed.

(** A lookup or a snapshot leaves the registry as it is. *)
Lemma query_same_registry st o :
  wf st → is_register o = false → same_registry (step st o) st.
Proof.
  intros Hwf Hq. split; [by apply step_REGISTRY|].
  destruct o as [n d|n|]; [done| |]; cbn [step].
  - run_method. by destruct (_REGISTRY st).
  - apply wf_cases in Hwf as [Hnone|[m Hmap]].
    + by rewrite (registry_uninitialized st Hnone).
    + by rewrite (registry_keeps_mapping st m Hmap).
Qed.

Lemma run_same_registry ops s1 s2 :
  wf s1 → wf s2 → same_registry s1 s2 →
  same_registry (run ops s1) (run (registrations ops) s2) ∧
  accepted ops s1 = accepted (registrations ops) s2.
Proof.
  revert s1 s2. induction ops as [|o ops IH]; intros s1 s2 Hwf1 Hwf2 Hsame; [done|].
  destruct (is_register o) eqn:Hq.
  - assert (Hregs : registrations (o :: ops) = o :: registrations ops).
    { unfold registrations. simpl. by rewrite Hq. }
    rewrite Hregs, !run_cons, accepted_cons, (accepted_cons o (registrations ops)).
    destruct o as [n d|n|]; [|done..].
    destruct (add_class_same_registry s1 s2 n d Hwf1 Hwf2 Hsame) as [Hout Hsame'].
    destruct (IH (step s1 (Register n d)) (step s2 (Register n d)))
      as [IHsame IHacc]; [by apply step_wf..|done|].
    split; [done|]. rewrite IHacc. f_equal.
    cbn [accepted step]. destruct Hsame as [-> _]. by rewrite Hout.
  - assert (Hregs : registrations (o :: ops) = registrations ops).
    { unfold registrations. simpl. by rewrite Hq. }
    rewrite Hregs, run_cons, accepted_cons.
    destruct (query_same_registry s1 o Hwf1 Hq) as [Hreg1 Hmap1].
    destruct Hsame as [Hreg Hmap].
    destruct (IH (step s1 o) s2) as [IHsame IHacc];
      [by apply step_wf | done | split; congruence |].
    split; [done|]. rewrite IHacc.
    by destruct o as [n d|n|].
Qed.

(** X6: lookups and snapshots are transparent.  On a well-formed state, the
    registry reached by a sequence of operations is the one reached by its
    registrations alone: the same mapping, the same registrations taken and
    the same result for every later [retrieve]. *)
Theorem queries_are_transparent st ops :
  wf st →
  mapping_of (run ops st) = mapping_of (run (registrations ops) st) ∧
  accepted ops st = accepted (registrations ops) st ∧
  ∀ n, (retrieve n (run ops st)).1 = (retrieve n (run (registrations ops) st)).1.
Proof.
  intros Hwf.
  destruct (run_same_registry ops st st Hwf Hwf) as [[Hreg Hmap] Hacc]; [done|].
  split; [done|]. split; [done|]. intros n.
  destruct (mapping_of (run ops st)) as [m|] eqn:Hm.
  - rewrite (retrieve_active _ m n Hm). by rewrite (retrieve_active _ m n).
  - assert (Hwf' : wf (run ops st)).
    { clear -Hwf. revert st Hwf. induction ops as [|o ops IH]; intros st Hwf; [done|].
      rewrite run_cons. apply IH. by apply step_wf. }
    apply wf_cases in Hwf' as [Hnone|[m' Hm']]; [|congruence].
    rewrite (retrieve_uninitialized _ n Hnone).
    rewrite (retrieve_uninitialized _ n); [done | congruence].
Qed.

(** X12: [registry()] hands out a new object.  The reference it returns was
    not a dict before the call; the call leaves [_REGISTRY] and every dict
    that existed as they were, so snapshots held elsewhere are not touched. *)
Theorem registry_returns_new_dict st r st' :
  registry st = (Return (Some r), st') →
  heap st !! r = None ∧
  _REGISTRY st' = _REGISTRY st ∧
  ∀ l, is_Some (heap st !! l) → heap st' !! l = heap st !! l.
Proof.
  run_method. destruct (_REGISTRY st) as [l0|] eqn:Hl; simpl; [|discriminate].
  intros [= <- <-]. simpl.
  assert (Hfresh : heap st !! fresh (dom (heap st)) = None).
  { apply not_elem_of_dom. apply is_fresh. }
  split; [done|]. split; [done|]. intros l [x Hx].
  rewrite lookup_insert_ne; [done|]. intros Heq. rewrite Heq in Hfresh. congruence.
Qed.

End Lifecycle.

(** ** More on the type-creation hook *)

Section Creation.

Context {Descriptor Bases Attrs : Type}.
Variable type_new : string → Bases → Attrs → M Descriptor Descriptor.
Implicit Types (st : state Descriptor) (m : gmap string Descriptor).
Implicit Types (n name : string) (c : Descriptor).

(** Registration under one name, returning or raising, leaves what every
    other name retrieves. *)
Lemma add_class_other_names st n c n' :
  n' ≠ n → (retrieve n' (_add_class n c st).2).1 = (retrieve n' st).1.
Proof.
  intros Hne. run_method.
  destruct (_REGISTRY st) as [l|] eqn:Hl; simpl; [|by rewrite Hl].
  case_bool_decide; simpl; rewrite Hl; simpl; [done|].
  f_equal. unfold deref. simpl. rewrite !lookup_total_alt, lookup_alter_eq.
  destruct (heap st !! l) as [m|]; simpl; [by rewrite lookup_insert_ne | done].
Qed.

(** X7: a class cannot be created under a registered name.  When the name is
    in the backing mapping, [__new__] raises the [TypeError] of [_add_class]
    instead of returning the class that [type.__new__] made; the registry is
    as creation left it and still has the class registered first. *)
Theorem new_duplicate_raises name bases attrs st c st1 m c0 :
  type_new name bases attrs st = (Return c, st1) →
  mapping_of st1 = Some m → m !! name = Some c0 →
  __new__ type_new _add_class name bases attrs st
  = (Raise (TypeError ("Type " +:+ name +:+ " already exists in registry")), st1) ∧
  retrieve name st1 = (Return (Some c0), st1).
Proof.
  intros Hnew Hmap Hname.
  rewrite (new_calls_hook type_new _add_class _ _ _ _ _ _ Hnew).
  rewrite (add_class_duplicate st1 m name c Hmap) by eauto.
  split; [done|]. by rewrite (retrieve_active _ _ name Hmap), Hname.
Qed.

(** X8: [__new__] touches its own name only.  Whether it returns or raises,
    and whatever the registry is, every other name retrieves after
    [__new__] what it retrieved once [type.__new__] had made the class. *)
Theorem new_touches_only_its_name name bases attrs st c st1 n' :
  type_new name bases attrs st = (Return c, st1) →
  n' ≠ name →
  (retrieve n' (__new__ type_new _add_class name bases attrs st).2).1
  = (retrieve n' st1).1.
Proof.
  intros Hnew Hne.
  rewrite (new_calls_hook type_new _add_class _ _ _ _ _ _ Hnew).
  rewrite <- (add_class_other_names st1 name c n' Hne).
  by destruct (_add_class name c st1) as [[[]|e] st2].
Qed.


(** X10: an uninitialized registry does not enforce unique names.  When
    [_REGISTRY] is [None] after each creation, two calls of [__new__] with the
    same name both return the class that [type.__new__] made and leave the
    state as creation left it. *)
Theorem new_uninitialized_accepts_same_name name b1 a1 b2 a2 st c1 st1 c2 st2 :
  type_new name b1 a1 st = (Return c1, st1) → _REGISTRY st1 = None →
  type_new name b2 a2 st1 = (Return c2, st2) → _REGISTRY st2 = None →
  __new__ type_new _add_class name b1 a1 st = (Return c1, st1) ∧
  __new__ type_new _add_class name b2 a2 st1 = (Return c2, st2) ∧
  retrieve name st2 = (Return None, st2).
Proof.
  intros Hnew1 Hnone1 Hnew2 Hnone2.
  split; [by apply new_uninitialized|]. split; [by apply new_uninitialized|].
  by apply retrieve_uninitialized.
Qed.

End Creation.

(** ** The message of the duplicate-name error *)

Lemma string_length_app (s t : string) :
  String.length (s +:+ t) = String.length s + String.length t.
Proof.
  induction s as [|a s IH]; [done|].
  change (String a s +:+ t) with (String a (s +:+ t)). simpl. by rewrite IH.
Qed.

Lemma string_app_inv_tail (s1 s2 t : string) : s1 +:+ t = s2 +:+ t → s1 = s2.
Proof.
  revert s2. induction s1 as [|a s1 IH]; intros [|b s2] Heq; [done| | |].
  - apply (f_equal String.length) in Heq.
    rewrite !string_length_app in Heq. simpl in Heq. lia.
  - apply (f_equal String.length) in Heq.
    rewrite !string_length_app in Heq. simpl in Heq. lia.
  - change (String a (s1 +:+ t) = String b (s2 +:+ t)) in Heq.
    injection Heq as -> Heq. f_equal. by apply IH.
Qed.

(** X11: the error names the offending type.  Two duplicate registrations
    raise the same exception only if they are for the same name: the name
    can be read back from the message. *)
Theorem duplicate_message_names_type {Descriptor : Type}
    (st : state Descriptor) (m : gmap string Descriptor) n1 n2 d1 d2 :
  mapping_of st = Some m → is_Some (m !! n1) → is_Some (m !! n2) →
  (_add_class n1 d1 st).1 = (_add_class n2 d2 st).1 → n1 = n2.
Proof.
  intros Hmap H1 H2.
  rewrite (add_class_duplicate st m n1 d1 Hmap H1).
  rewrite (add_class_duplicate st m n2 d2 Hmap H2).
  cbn [fst]. intros [= Heq].
  change (n1 +:+ " already exists in registry"
          = n2 +:+ " already exists in registry") in Heq.
  by apply string_app_inv_tail in Heq.
Qed.

(** ** The further properties at the fixtures *)

Lemma loaded_mapping :
  mapping_of MetaWithRegistry_loaded = Some {[ "BaseWithRegistry" := BaseWithRegistry ]}.
Proof. vm_compute. reflexivity. Defined.

Lemma loaded_entry :
  ({[ "BaseWithRegistry" := BaseWithRegistry ]} : gmap string class_obj)
    !! "BaseWithRegistry" = Some BaseWithRegistry.
Proof. vm_compute. reflexivity. Defined.

Lemma registered_entry_persists_witness :
  retrieve "BaseWithRegistry" (run client_ops MetaWithRegistry_loaded)
  = (Return (Some BaseWithRegistry), run client_ops MetaWithRegistry_loaded).
Proof.
  exact (registered_entry_persists _ _ _ _ client_ops loaded_mapping loaded_entry).
Defined.

Lemma taken_name_stays_taken_witness :
  _add_class "BaseWithRegistry" BaseNoRegistry (run client_ops MetaWithRegistry_loaded)
  = (Raise (TypeError "Type BaseWithRegistry already exists in registry"),
     run client_ops MetaWithRegistry_loaded).
Proof.
  apply (taken_name_stays_taken _ _ "BaseWithRegistry" BaseNoRegistry client_ops
           loaded_mapping).
  exists BaseWithRegistry. exact loaded_entry.
Defined.

Lemma snapshot_is_frozen_witness :
  heap (run client_ops (registry MetaWithRegistry_loaded).2) !! 2%positive
  = Some {[ "BaseWithRegistry" := BaseWithRegistry ]}.
Proof.
  apply (snapshot_is_frozen MetaWithRegistry_loaded _ 2%positive
           (registry MetaWithRegistry_loaded).2 client_ops loaded_mapping).
  vm_compute. reflexivity.
Defined.

Lemma snapshot_agrees_with_retrieve_witness :
  ∃ snap, heap (registry MetaWithRegistry_loaded).2 !! 2%positive = Some snap ∧
    ∀ n, (retrieve n MetaWithRegistry_loaded).1 = Return (snap !! n) ∧
         retrieve n (registry MetaWithRegistry_loaded).2
         = (Return (snap !! n), (registry MetaWithRegistry_loaded).2).
Proof.
  apply (snapshot_agrees_with_retrieve MetaWithRegistry_loaded 2%positive).
  vm_compute. reflexivity.
Defined.

Lemma uninitialized_is_inert_witness :
  run client_ops MetaNoRegistry = MetaNoRegistry ∧ accepted client_ops MetaNoRegistry = [].
Proof. apply (uninitialized_is_inert MetaNoRegistry client_ops). reflexivity. Defined.

Lemma queries_are_transparent_witness :
  wf MetaWithRegistry_loaded ∧
  mapping_of (run client_ops MetaWithRegistry_loaded)
  = mapping_of (run (registrations client_ops) MetaWithRegistry_loaded).
Proof.
  assert (Hwf : wf MetaWithRegistry_loaded) by (eexists; vm_compute; reflexivity).
  split; [exact Hwf|]. exact (proj1 (queries_are_transparent _ client_ops Hwf)).
Defined.

Lemma registry_returns_new_dict_witness :
  heap MetaWithRegistry_loaded !! 2%positive = None ∧
  _REGISTRY (registry MetaWithRegistry_loaded).2 = _REGISTRY MetaWithRegistry_loaded ∧
  ∀ l, is_Some (heap MetaWithRegistry_loaded !! l) →
       heap (registry MetaWithRegistry_loaded).2 !! l = heap MetaWithRegistry_loaded !! l.
Proof.
  apply (registry_returns_new_dict MetaWithRegistry_loaded 2%positive).
  vm_compute. reflexivity.
Defined.

(** A second class statement for [BaseWithRegistry]. *)
Lemma new_duplicate_raises_witness :
  __new__ make_class _add_class "BaseWithRegistry" [] [] MetaWithRegistry_loaded
  = (Raise (TypeError "Type BaseWithRegistry already exists in registry"),
     MetaWithRegistry_loaded) ∧
  retrieve "BaseWithRegistry" MetaWithRegistry_loaded
  = (Return (Some BaseWithRegistry), MetaWithRegistry_loaded).
Proof.
  apply (new_duplicate_raises make_class "BaseWithRegistry" [] []
           MetaWithRegistry_loaded (Class "BaseWithRegistry" [] [])
           MetaWithRegistry_loaded {[ "BaseWithRegistry" := BaseWithRegistry ]}
           BaseWithRegistry).
  - reflexivity.
  - exact loaded_mapping.
  - exact loaded_entry.
Defined.

Lemma new_touches_only_its_name_witness :
  (retrieve "BaseWithRegistry"
     (__new__ make_class _add_class "Other" [] [] MetaWithRegistry_loaded).2).1
  = (retrieve "BaseWithRegistry" MetaWithRegistry_loaded).1.
Proof.
  apply (new_touches_only_its_name make_class "Other" [] []
           MetaWithRegistry_loaded (Class "Other" [] []) MetaWithRegistry_loaded).
  - reflexivity.
  - discriminate.
Defined.


Lemma new_uninitialized_accepts_same_name_witness :
  __new__ make_class _add_class "BaseNoRegistry" [] [] MetaNoRegistry
  = (Return BaseNoRegistry, MetaNoRegistry) ∧
  __new__ make_class _add_class "BaseNoRegistry" [] ["again"] MetaNoRegistry
  = (Return (Class "BaseNoRegistry" [] ["again"]), MetaNoRegistry) ∧
  retrieve "BaseNoRegistry" MetaNoRegistry = (Return None, MetaNoRegistry).
Proof.
  apply (new_uninitialized_accepts_same_name make_class "BaseNoRegistry"
           [] [] [] ["again"] MetaNoRegistry BaseNoRegistry MetaNoRegistry
           (Class "BaseNoRegistry" [] ["again"]) MetaNoRegistry); reflexivity.
Defined.

Lemma duplicate_message_names_type_witness :
  (_add_class "BaseWithRegistry" BaseNoRegistry MetaWithRegistry_loaded).1
  = (_add_class "BaseWithRegistry" BaseWithRegistry MetaWithRegistry_loaded).1 ∧
  "BaseWithRegistry" = "BaseWithRegistry".
Proof.
  split; [vm_compute; reflexivity|].
  apply (duplicate_message_names_type MetaWithRegistry_loaded _
           "BaseWithRegistry" "BaseWithRegistry" BaseNoRegistry BaseWithRegistry
           loaded_mapping).
  - exists BaseWithRegistry. exact loaded_entry.
  - exists BaseWithRegistry. exact loaded_entry.
  - vm_compute. reflexivity.
Defined.
